(** * voxblox: camera frustum model (src/utils/camera_model.cc)

    A shallow embedding of [Plane] and [CameraModel] and the properties of
    the frustum/AABB computation.

    Scalars are real numbers (the data model describes a point as a 3D
    real-valued vector); the linear algebra of the vector type and the rigid
    transform type are external to the translation unit and are written out
    here with their textbook definitions.  Methods of [CameraModel] are
    actions of a small state-and-failure monad over the object's fields:
    a failed [CHECK] or an out-of-range element access yields [None].
    Rounding, overflow and NaN of the floating-point scalars are outside
    this model. *)

From stdpp Require Import base list.
From Stdlib Require Import Reals Lra.

Local Open Scope R_scope.

(** ** Points and their linear algebra *)

(** Modelled from the spec: the [Point] type of the missing common header,
    a 3D real-valued vector with cross product, dot product and
    normalization. *)
Record Point : Type := mkPoint { px : R; py : R; pz : R }.

Module Vec.

Definition zero : Point := mkPoint 0 0 0.

Definition add (a b : Point) : Point :=
  mkPoint (px a + px b) (py a + py b) (pz a + pz b).

Definition sub (a b : Point) : Point :=
  mkPoint (px a - px b) (py a - py b) (pz a - pz b).

Definition neg (a : Point) : Point :=
  mkPoint (- px a) (- py a) (- pz a).

Definition div (a : Point) (s : R) : Point :=
  mkPoint (px a / s) (py a / s) (pz a / s).

Definition dot (a b : Point) : R :=
  px a * px b + py a * py b + pz a * pz b.

Definition cross (a b : Point) : Point :=
  mkPoint (py a * pz b - pz a * py b)
          (pz a * px b - px a * pz b)
          (px a * py b - py a * px b).

Definition squaredNorm (a : Point) : R := dot a a.

Definition norm (a : Point) : R := sqrt (squaredNorm a).

(** [v.normalized()]: the vector divided by its norm; a vector of norm
    zero is returned as it is. *)
Definition normalized (a : Point) : Point :=
  let z := squaredNorm a in
  if Rlt_dec 0 z then div a (sqrt z) else a.

(** The three coordinate axes, the indices 0, 1, 2 of [p(i)]. *)
Inductive Axis : Type := AxisX | AxisY | AxisZ.

Definition axes : list Axis := [AxisX; AxisY; AxisZ].

Definition coeff (p : Point) (i : Axis) : R :=
  match i with AxisX => px p | AxisY => py p | AxisZ => pz p end.

Definition setCoeff (p : Point) (i : Axis) (v : R) : Point :=
  match i with
  | AxisX => mkPoint v (py p) (pz p)
  | AxisY => mkPoint (px p) v (pz p)
  | AxisZ => mkPoint (px p) (py p) v
  end.

Definition setConstant (v : R) : Point := mkPoint v v v.

End Vec.

(** ** Plane *)

Record Plane : Type := mkPlane { normal_ : Point; distance_ : R }.

Module PlaneM.

(** [Plane::setFromPoints]: overwrites both fields of the receiver. *)
Definition setFromPoints (p1 p2 p3 : Point) (self : Plane) : Plane :=
  let p1p2 := Vec.sub p2 p1 in
  let p1p3 := Vec.sub p3 p1 in
  let cross := Vec.cross p1p2 p1p3 in
  let normal := Vec.normalized cross in
  mkPlane normal (Vec.dot normal p1).


(** [Plane::isPointInside] (the logging statements have no effect). *)
Definition isPointInside (self : Plane) (point : Point) : bool :=
  if Rge_dec (Vec.dot point (normal_ self)) (distance_ self)
  then true
  else false.

Definition normal (self : Plane) : Point := normal_ self.
Definition distance (self : Plane) : R := distance_ self.

End PlaneM.

(** ** Rigid transformations: unit quaternion and translation *)

(** Modelled from the spec: the [Transformation] type of the missing common
    header, a rigid body transform (rotation and translation) with
    composition and inversion. *)
Record Quaternion : Type := mkQuat { qw : R; qx : R; qy : R; qz : R }.

Record Transformation : Type :=
  mkTransformation { rotation : Quaternion; position : Point }.

Module Tf.

Definition qmul (a b : Quaternion) : Quaternion :=
  mkQuat (qw a * qw b - qx a * qx b - qy a * qy b - qz a * qz b)
         (qw a * qx b + qx a * qw b + qy a * qz b - qz a * qy b)
         (qw a * qy b - qx a * qz b + qy a * qw b + qz a * qx b)
         (qw a * qz b + qx a * qy b - qy a * qx b + qz a * qw b).

Definition conj (a : Quaternion) : Quaternion :=
  mkQuat (qw a) (- qx a) (- qy a) (- qz a).

Definition qsquaredNorm (a : Quaternion) : R :=
  qw a * qw a + qx a * qx a + qy a * qy a + qz a * qz a.

Definition pure (v : Point) : Quaternion := mkQuat 0 (px v) (py v) (pz v).

Definition vec (a : Quaternion) : Point := mkPoint (qx a) (qy a) (qz a).

(** Rotation of a vector: the vector part of [q v q*]. *)
Definition rotate (q : Quaternion) (v : Point) : Point :=
  vec (qmul (qmul q (pure v)) (conj q)).

Definition qidentity : Quaternion := mkQuat 1 0 0 0.

(** Default-constructed transformation. *)
Definition identity : Transformation :=
  mkTransformation qidentity Vec.zero.

(** [A * B] *)
Definition compose (A B : Transformation) : Transformation :=
  mkTransformation (qmul (rotation A) (rotation B))
                   (Vec.add (position A) (rotate (rotation A) (position B))).

(** [A.inverse()] *)
Definition inverse (A : Transformation) : Transformation :=
  mkTransformation (conj (rotation A))
                   (Vec.neg (rotate (conj (rotation A)) (position A))).

(** [A * p] *)
Definition transform (A : Transformation) (p : Point) : Point :=
  Vec.add (rotate (rotation A) p) (position A).

End Tf.

(** ** CameraModel *)

(** Modelled from the spec: the data members of [CameraModel], declared in
    the missing class header: the eight untransformed corners, the
    extrinsics, the pose, the bounding planes, the AABB and the
    initialization flag. *)
Record CameraModel : Type := mkCameraModel {
  initialized_ : bool;
  T_C_B_ : Transformation;
  T_G_C_ : Transformation;
  untransformed_corners_ : list Point;
  bounding_planes_ : list Plane;
  aabb_min_ : Point;
  aabb_max_ : Point
}.

(** Field updates. *)
Definition with_initialized (v : bool) (cm : CameraModel) : CameraModel :=
  mkCameraModel v (T_C_B_ cm) (T_G_C_ cm) (untransformed_corners_ cm)
                (bounding_planes_ cm) (aabb_min_ cm) (aabb_max_ cm).

Definition with_T_C_B (v : Transformation) (cm : CameraModel) : CameraModel :=
  mkCameraModel (initialized_ cm) v (T_G_C_ cm) (untransformed_corners_ cm)
                (bounding_planes_ cm) (aabb_min_ cm) (aabb_max_ cm).

Definition with_T_G_C (v : Transformation) (cm : CameraModel) : CameraModel :=
  mkCameraModel (initialized_ cm) (T_C_B_ cm) v (untransformed_corners_ cm)
                (bounding_planes_ cm) (aabb_min_ cm) (aabb_max_ cm).

Definition with_corners (v : list Point) (cm : CameraModel) : CameraModel :=
  mkCameraModel (initialized_ cm) (T_C_B_ cm) (T_G_C_ cm) v
                (bounding_planes_ cm) (aabb_min_ cm) (aabb_max_ cm).

Definition with_planes (v : list Plane) (cm : CameraModel) : CameraModel :=
  mkCameraModel (initialized_ cm) (T_C_B_ cm) (T_G_C_ cm)
                (untransformed_corners_ cm) v (aabb_min_ cm) (aabb_max_ cm).

Definition with_aabb (mn mx : Point) (cm : CameraModel) : CameraModel :=
  mkCameraModel (initialized_ cm) (T_C_B_ cm) (T_G_C_ cm)
                (untransformed_corners_ cm) (bounding_planes_ cm) mn mx.

(** *** Method monad: state of the receiver, [None] when the call aborts *)

Definition M (A : Type) : Type := CameraModel -> option (A * CameraModel).

#[global] Instance M_ret : MRet M := fun A x cm => Some (x, cm).

#[global] Instance M_bind : MBind M := fun A B f m cm =>
  match m cm with
  | Some (x, cm') => f x cm'
  | None => None
  end.

Definition gets {A : Type} (f : CameraModel -> A) : M A :=
  fun cm => Some (f cm, cm).

Definition modify (f : CameraModel -> CameraModel) : M unit :=
  fun cm => Some (tt, f cm).

Definition abort {A : Type} : M A := fun _ => None.

(** Element access [v[i]]; an index out of range, undefined in the source,
    is an abort. *)
Definition at_index {A : Type} (v : list A) (i : nat) : M A :=
  match v !! i with
  | Some x => mret x
  | None => abort
  end.

(** [CHECK_EQ(a, b)] *)
Definition CHECK_EQ (a b : nat) : M unit :=
  if Nat.eqb a b then mret tt else abort.

(** Largest finite double and its negation
    ([std::numeric_limits<double>::max()] and [lowest()]). *)
Definition DBL_MAX : R := IZR (2 ^ 1024 - 2 ^ 971).
Definition DBL_LOWEST : R := - DBL_MAX.

Module Camera.

(** Modelled from the spec: the default-constructed [Plane] of the missing
    class header, with which [resize] fills [bounding_planes_]; every
    entry is overwritten before it is read. *)
Definition default_plane : Plane := mkPlane (mkPoint 1 0 0) 0.

(** Modelled from the spec: the constructor of the missing class header:
    not initialized, identity transformations, no corners and no planes;
    the two AABB points start with arbitrary contents. *)
Definition new (aabb_min0 aabb_max0 : Point) : CameraModel :=
  mkCameraModel false Tf.identity Tf.identity [] [] aabb_min0 aabb_max0.

Definition emplace_back_corner (p : Point) : M unit :=
  modify (fun cm => with_corners (untransformed_corners_ cm ++ [p]) cm).

(** [CameraModel::setIntrinsicsFromFoV] *)
Definition setIntrinsicsFromFoV
    (horizontal_fov vertical_fov min_distance max_distance : R) : M unit :=
  modify (with_corners []);;
  let tan_half_horizontal_fov := tan (horizontal_fov / 2) in
  let tan_half_vertical_fov := tan (vertical_fov / 2) in
  (* near plane *)
  emplace_back_corner
    (mkPoint min_distance (min_distance * tan_half_horizontal_fov)
             (min_distance * tan_half_vertical_fov));;
  emplace_back_corner
    (mkPoint min_distance (min_distance * tan_half_horizontal_fov)
             (- min_distance * tan_half_vertical_fov));;
  emplace_back_corner
    (mkPoint min_distance (- min_distance * tan_half_horizontal_fov)
             (- min_distance * tan_half_vertical_fov));;
  emplace_back_corner
    (mkPoint min_distance (- min_distance * tan_half_horizontal_fov)
             (min_distance * tan_half_vertical_fov));;
  (* far plane *)
  emplace_back_corner
    (mkPoint max_distance (max_distance * tan_half_horizontal_fov)
             (max_distance * tan_half_vertical_fov));;
  emplace_back_corner
    (mkPoint max_distance (max_distance * tan_half_horizontal_fov)
             (- max_distance * tan_half_vertical_fov));;
  emplace_back_corner
    (mkPoint max_distance (- max_distance * tan_half_horizontal_fov)
             (- max_distance * tan_half_vertical_fov));;
  emplace_back_corner
    (mkPoint max_distance (- max_distance * tan_half_horizontal_fov)
             (max_distance * tan_half_vertical_fov));;
  modify (with_initialized true).

(** [CameraModel::setIntrinsicsFromFocalLength] *)
Definition setIntrinsicsFromFocalLength
    (resolution_x resolution_y focal_length min_distance max_distance : R)
    : M unit :=
  let horizontal_fov := 2 * atan (resolution_x / (2 * focal_length)) in
  let vertical_fov := 2 * atan (resolution_y / (2 * focal_length)) in
  setIntrinsicsFromFoV horizontal_fov vertical_fov min_distance max_distance.

(** [CameraModel::setExtrinsics] *)
Definition setExtrinsics (T_C_B : Transformation) : M unit :=
  modify (with_T_C_B T_C_B).

(** [CameraModel::getCameraPose] *)
Definition getCameraPose : M Transformation := gets T_G_C_.

(** [CameraModel::getBodyPose] *)
Definition getBodyPose : M Transformation :=
  gets (fun cm => Tf.compose (T_G_C_ cm) (T_C_B_ cm)).

(** [bounding_planes_[i].setFromPoints(tc[a], tc[b], tc[c])] *)
Definition set_plane (i : nat) (tc : list Point) (a b c : nat) : M unit :=
  planes ← gets bounding_planes_;
  pl ← at_index planes i;
  p1 ← at_index tc a;
  p2 ← at_index tc b;
  p3 ← at_index tc c;
  modify (with_planes (<[i := PlaneM.setFromPoints p1 p2 p3 pl]> planes)).

(** One iteration of the inner AABB loop, on axis [i] and corner [c]. *)
Definition aabb_step (i : Vec.Axis) (acc : Point * Point) (c : Point)
    : Point * Point :=
  (Vec.setCoeff (fst acc) i (Rmin (Vec.coeff (fst acc) i) (Vec.coeff c i)),
   Vec.setCoeff (snd acc) i (Rmax (Vec.coeff (snd acc) i) (Vec.coeff c i))).

(** The two nested AABB loops: axes outside, corners inside. *)
Definition aabb_loops (tc : list Point) (acc : Point * Point)
    : Point * Point :=
  fold_left (fun acc i => fold_left (aabb_step i) tc acc) Vec.axes acc.

(** [CameraModel::calculateBoundingPlanes] *)
Definition calculateBoundingPlanes : M unit :=
  initialized ← gets initialized_;
  if negb initialized then mret tt else
  corners ← gets untransformed_corners_;
  CHECK_EQ (length corners) 8;;
  planes ← gets bounding_planes_;
  (if decide (planes = [])
   then modify (with_planes (resize 6 default_plane planes))
   else mret tt);;
  T_G_C ← gets T_G_C_;
  let transformed_corners := map (Tf.transform T_G_C) corners in
  set_plane 0 transformed_corners 0 2 1;;   (* near *)
  set_plane 1 transformed_corners 4 5 6;;   (* far *)
  set_plane 2 transformed_corners 3 6 2;;   (* left *)
  set_plane 3 transformed_corners 0 5 4;;   (* right *)
  set_plane 4 transformed_corners 3 4 7;;   (* top *)
  set_plane 5 transformed_corners 2 6 5;;   (* bottom *)
  let aabb := aabb_loops transformed_corners
                (Vec.setConstant DBL_MAX, Vec.setConstant DBL_LOWEST) in
  modify (with_aabb (fst aabb) (snd aabb)).

(** [CameraModel::setCameraPose] *)
Definition setCameraPose (cam_pose : Transformation) : M unit :=
  modify (with_T_G_C cam_pose);;
  calculateBoundingPlanes.

(** [CameraModel::setBodyPose] *)
Definition setBodyPose (body_pose : Transformation) : M unit :=
  T_C_B ← gets T_C_B_;
  setCameraPose (Tf.compose body_pose (Tf.inverse T_C_B)).

(** [CameraModel::getAabb] *)
Definition getAabb : M (Point * Point) :=
  gets (fun cm => (aabb_min_ cm, aabb_max_ cm)).

(** The loop of [isPointInView]: leaves at the first failing plane. *)
Fixpoint isPointInView_loop (planes : list Plane) (point : Point) : bool :=
  match planes with
  | [] => true
  | pl :: rest =>
      if negb (PlaneM.isPointInside pl point) then false
      else isPointInView_loop rest point
  end.

(** [CameraModel::isPointInView] *)
Definition isPointInView (point : Point) : M bool :=
  planes ← gets bounding_planes_;
  mret (isPointInView_loop planes point).

End Camera.

(** * Vocabulary of the properties *)

(** Three points are collinear when the cross product of the two edge
    vectors out of the first one vanishes. *)
Definition collinear (p1 p2 p3 : Point) : Prop :=
  Vec.cross (Vec.sub p2 p1) (Vec.sub p3 p1) = Vec.zero.

(** The corners as the specification words them: at a depth, the lateral
    extent is [depth * tan (hfov / 2)] and the vertical extent is
    [depth * tan (vfov / 2)], depth along +X, enumerated with the signs
    (+,+), (+,-), (-,-), (-,+). *)
Definition spec_corner (hfov vfov depth : R) (signs : R * R) : Point :=
  mkPoint depth
          (fst signs * (depth * tan (hfov / 2)))
          (snd signs * (depth * tan (vfov / 2))).

Definition spec_sign_order : list (R * R) :=
  [(1, 1); (1, -1); (-1, -1); (-1, 1)].

Definition spec_corners_at (hfov vfov depth : R) : list Point :=
  map (spec_corner hfov vfov depth) spec_sign_order.

Definition spec_corners (hfov vfov min_distance max_distance : R)
    : list Point :=
  spec_corners_at hfov vfov min_distance
  ++ spec_corners_at hfov vfov max_distance.

(** The corner list the code builds, read off the eight [emplace_back]s. *)
Definition code_corners (h v mn mx : R) : list Point :=
  [ mkPoint mn (mn * tan (h / 2)) (mn * tan (v / 2));
    mkPoint mn (mn * tan (h / 2)) (- mn * tan (v / 2));
    mkPoint mn (- mn * tan (h / 2)) (- mn * tan (v / 2));
    mkPoint mn (- mn * tan (h / 2)) (mn * tan (v / 2));
    mkPoint mx (mx * tan (h / 2)) (mx * tan (v / 2));
    mkPoint mx (mx * tan (h / 2)) (- mx * tan (v / 2));
    mkPoint mx (- mx * tan (h / 2)) (- mx * tan (v / 2));
    mkPoint mx (- mx * tan (h / 2)) (mx * tan (v / 2)) ].

(** Two states with the same configuration: flag, both transformations
    and corners. *)
Definition same_config (cm cm' : CameraModel) : Prop :=
  initialized_ cm' = initialized_ cm
  /\ T_C_B_ cm' = T_C_B_ cm
  /\ T_G_C_ cm' = T_G_C_ cm
  /\ untransformed_corners_ cm' = untransformed_corners_ cm.

(** Shape of the two vectors in every state the methods can produce:
    eight corners once initialized, and no planes or six of them. *)
Definition planes_ok (cm : CameraModel) : Prop :=
  bounding_planes_ cm = [] \/ length (bounding_planes_ cm) = 6%nat.

Definition wf (cm : CameraModel) : Prop :=
  (initialized_ cm = true -> length (untransformed_corners_ cm) = 8%nat)
  /\ planes_ok cm.

(** The six planes by role, from the eight transformed corners. *)
Definition frustum_planes (t0 t1 t2 t3 t4 t5 t6 t7 : Point) : list Plane :=
  [ PlaneM.setFromPoints t0 t2 t1 Camera.default_plane;   (* near *)
    PlaneM.setFromPoints t4 t5 t6 Camera.default_plane;   (* far *)
    PlaneM.setFromPoints t3 t6 t2 Camera.default_plane;   (* left *)
    PlaneM.setFromPoints t0 t5 t4 Camera.default_plane;   (* right *)
    PlaneM.setFromPoints t3 t4 t7 Camera.default_plane;   (* top *)
    PlaneM.setFromPoints t2 t6 t5 Camera.default_plane ]. (* bottom *)

Definition initial_aabb : Point * Point :=
  (Vec.setConstant DBL_MAX, Vec.setConstant DBL_LOWEST).

(** A coordinate a double can hold. *)
Definition in_double_range (x : R) : Prop := DBL_LOWEST <= x <= DBL_MAX.

Definition corners90 : list Point :=
  [ mkPoint 1 1 1; mkPoint 1 1 (-1); mkPoint 1 (-1) (-1); mkPoint 1 (-1) 1;
    mkPoint 10 10 10; mkPoint 10 10 (-10); mkPoint 10 (-10) (-10);
    mkPoint 10 (-10) 10 ].

(** The camera after [setIntrinsicsFromFoV (PI/2) (PI/2) 1 10] on a new
    object. *)
Definition camera90 (g0 g1 : Point) : CameraModel :=
  with_initialized true (with_corners corners90 (Camera.new g0 g1)).

Definition planes90 : list Plane :=
  frustum_planes (mkPoint 1 1 1) (mkPoint 1 1 (-1)) (mkPoint 1 (-1) (-1))
                 (mkPoint 1 (-1) 1) (mkPoint 10 10 10) (mkPoint 10 10 (-10))
                 (mkPoint 10 (-10) (-10)) (mkPoint 10 (-10) 10).

(** *** Sequences of calls on one camera *)

Inductive Call : Type :=
| CallSetIntrinsicsFromFoV (horizontal_fov vertical_fov min_distance
                            max_distance : R)
| CallSetIntrinsicsFromFocalLength (resolution_x resolution_y focal_length
                                    min_distance max_distance : R)
| CallSetExtrinsics (T_C_B : Transformation)
| CallSetCameraPose (cam_pose : Transformation)
| CallSetBodyPose (body_pose : Transformation).

Definition run_call (c : Call) : M unit :=
  match c with
  | CallSetIntrinsicsFromFoV h v mn mx =>
      Camera.setIntrinsicsFromFoV h v mn mx
  | CallSetIntrinsicsFromFocalLength rx ry f mn mx =>
      Camera.setIntrinsicsFromFocalLength rx ry f mn mx
  | CallSetExtrinsics T => Camera.setExtrinsics T
  | CallSetCameraPose P => Camera.setCameraPose P
  | CallSetBodyPose P => Camera.setBodyPose P
  end.

Fixpoint run_calls (cs : list Call) : M unit :=
  match cs with
  | [] => mret tt
  | c :: cs' => run_call c;; run_calls cs'
  end.

(** No pose is set once the intrinsics are: starting from flag [ini], the
    calls never reach a recomputation that gets past the guard. *)
Fixpoint never_recomputes (ini : bool) (cs : list Call) : bool :=
  match cs with
  | [] => true
  | CallSetIntrinsicsFromFoV _ _ _ _ :: cs'
  | CallSetIntrinsicsFromFocalLength _ _ _ _ _ :: cs' =>
      never_recomputes true cs'
  | CallSetExtrinsics _ :: cs' => never_recomputes ini cs'
  | (CallSetCameraPose _ | CallSetBodyPose _) :: cs' =>
      negb ini && never_recomputes ini cs'
  end.

(** *** Vocabulary of the frustum geometry *)

(** A point multiplied by a scalar. *)
Definition scaled (k : R) (a : Point) : Point :=
  mkPoint (k * px a) (k * py a) (k * pz a).

(** Intrinsics that [setIntrinsicsFromFoV] is meant for. *)
Definition valid_intrinsics (hfov vfov min_distance max_distance : R) : Prop :=
  0 < hfov < PI /\ 0 < vfov < PI /\ 0 < min_distance < max_distance.

(** A point within a box, axis by axis. *)
Definition in_box (box_min box_max p : Point) : Prop :=
  forall i : Vec.Axis,
    Vec.coeff box_min i <= Vec.coeff p i <= Vec.coeff box_max i.

(** The corners of [setIntrinsicsFromFoV] moved by a pose, and the six
    planes [calculateBoundingPlanes] sets from them. *)
Definition posed_corners (h v mn mx : R) (P : Transformation) : list Point :=
  map (Tf.transform P) (code_corners h v mn mx).

Definition posed_planes (h v mn mx : R) (P : Transformation) : list Plane :=
  let T := Tf.transform P in
  frustum_planes
    (T (mkPoint mn (mn * tan (h / 2)) (mn * tan (v / 2))))
    (T (mkPoint mn (mn * tan (h / 2)) (- mn * tan (v / 2))))
    (T (mkPoint mn (- mn * tan (h / 2)) (- mn * tan (v / 2))))
    (T (mkPoint mn (- mn * tan (h / 2)) (mn * tan (v / 2))))
    (T (mkPoint mx (mx * tan (h / 2)) (mx * tan (v / 2))))
    (T (mkPoint mx (mx * tan (h / 2)) (- mx * tan (v / 2))))
    (T (mkPoint mx (- mx * tan (h / 2)) (- mx * tan (v / 2))))
    (T (mkPoint mx (- mx * tan (h / 2)) (mx * tan (v / 2)))).

(** * Properties *)

(** ** Vector algebra *)

Section VecFacts.

Implicit Types a b c : Point.

Lemma point_eq a b :
  px a = px b -> py a = py b -> pz a = pz b -> a = b.
Proof. destruct a, b; simpl; intros -> -> ->; reflexivity. Qed.

Lemma dot_comm a b : Vec.dot a b = Vec.dot b a.
Proof. unfold Vec.dot; ring. Qed.

Lemma dot_div_l a b s : Vec.dot (Vec.div a s) b = Vec.dot a b / s.
Proof. unfold Vec.dot, Vec.div, Rdiv; simpl; ring. Qed.

Lemma squaredNorm_nonneg a : 0 <= Vec.squaredNorm a.
Proof. unfold Vec.squaredNorm, Vec.dot; nra. Qed.

Lemma squaredNorm_zero a : Vec.squaredNorm a = 0 -> a = Vec.zero.
Proof.
  unfold Vec.squaredNorm, Vec.dot; intros H.
  apply point_eq; simpl; nra.
Qed.

Lemma squaredNorm_pos a : a <> Vec.zero -> 0 < Vec.squaredNorm a.
Proof.
  intros Hne. destruct (squaredNorm_nonneg a) as [Hlt | Heq]; [exact Hlt|].
  exfalso; apply Hne, squaredNorm_zero; symmetry; exact Heq.
Qed.

(** Away from the zero vector [normalized] is division by the norm. *)
Lemma normalized_nonzero a :
  a <> Vec.zero -> Vec.normalized a = Vec.div a (Vec.norm a).
Proof.
  intros Hne. unfold Vec.normalized, Vec.norm.
  destruct (Rlt_dec 0 (Vec.squaredNorm a)) as [_ | Hn]; [reflexivity|].
  exfalso; apply Hn, squaredNorm_pos, Hne.
Qed.

Lemma normalized_unit a :
  a <> Vec.zero -> Vec.squaredNorm (Vec.normalized a) = 1.
Proof.
  intros Hne. rewrite normalized_nonzero by exact Hne.
  pose proof (squaredNorm_pos a Hne) as Hpos.
  unfold Vec.norm, Vec.squaredNorm at 1.
  rewrite dot_div_l, dot_comm, dot_div_l.
  fold (Vec.squaredNorm a).
  assert (Hs : sqrt (Vec.squaredNorm a) * sqrt (Vec.squaredNorm a)
               = Vec.squaredNorm a) by (apply sqrt_sqrt; lra).
  assert (Hs0 : sqrt (Vec.squaredNorm a) <> 0).
  { intros H0; rewrite H0 in Hs; lra. }
  field_simplify; [|exact Hs0].
  replace (sqrt (Vec.squaredNorm a) ^ 2) with (Vec.squaredNorm a)
    by (rewrite <- Hs at 1; ring).
  field; lra.
Qed.

End VecFacts.

(** ** Plane *)

Section PlaneFacts.

Implicit Types p q r : Point.
Implicit Types self pl : Plane.

Lemma isPointInside_true pl p :
  PlaneM.isPointInside pl p = true
  <-> Vec.dot p (PlaneM.normal pl) >= PlaneM.distance pl.
Proof.
  unfold PlaneM.isPointInside, PlaneM.normal, PlaneM.distance.
  destruct (Rge_dec _ _) as [H | H]; split; intros; try easy.
Qed.

Lemma isPointInside_false pl p :
  PlaneM.isPointInside pl p = false
  <-> Vec.dot p (PlaneM.normal pl) < PlaneM.distance pl.
Proof.
  unfold PlaneM.isPointInside, PlaneM.normal, PlaneM.distance.
  destruct (Rge_dec _ _) as [H | H]; split; intros; try easy; lra.
Qed.

(** The side test of a plane through three points can be read off the
    cross product without normalizing it. *)
Lemma setFromPoints_inside_cross (p1 p2 p3 : Point) self p :
  PlaneM.isPointInside (PlaneM.setFromPoints p1 p2 p3 self) p = true
  <-> Vec.dot (Vec.sub p p1)
              (Vec.cross (Vec.sub p2 p1) (Vec.sub p3 p1)) >= 0.
Proof.
  rewrite isPointInside_true.
  unfold PlaneM.setFromPoints, PlaneM.normal, PlaneM.distance; simpl.
  set (n := Vec.cross (Vec.sub p2 p1) (Vec.sub p3 p1)).
  assert (Hsub : Vec.dot (Vec.sub p p1) n = Vec.dot p n - Vec.dot n p1)
    by (unfold Vec.dot, Vec.sub; simpl; ring).
  rewrite Hsub. unfold Vec.normalized.
  destruct (Rlt_dec 0 (Vec.squaredNorm n)) as [Hpos | Hnpos].
  - rewrite (dot_comm p), !dot_div_l, (dot_comm n p).
    pose proof (sqrt_lt_R0 _ Hpos) as Hs.
    pose proof (Rinv_0_lt_compat _ Hs) as Hi.
    unfold Rdiv. split; intros H.
    + apply Rle_ge.
      apply (Rmult_le_reg_r (/ sqrt (Vec.squaredNorm n))); [exact Hi|]. lra.
    + apply Rle_ge. apply Rge_le in H.
      apply (Rmult_le_compat_r (/ sqrt (Vec.squaredNorm n))) in H; lra.
  - split; lra.
Qed.

End PlaneFacts.

(** C4: after [setFromPoints p1 p2 p3] the normal is the normalized cross
    product of [p2 - p1] and [p3 - p1], the distance is the dot product of
    that normal with [p1], and [isPointInside p] is true exactly when
    [dot p normal >= distance]. *)
Theorem setFromPoints_isPointInside_spec (p1 p2 p3 : Point) (self : Plane) :
  let pl := PlaneM.setFromPoints p1 p2 p3 self in
  PlaneM.normal pl
    = Vec.normalized (Vec.cross (Vec.sub p2 p1) (Vec.sub p3 p1))
  /\ PlaneM.distance pl = Vec.dot (PlaneM.normal pl) p1
  /\ forall p : Point,
       PlaneM.isPointInside pl p = true
       <-> Vec.dot p (PlaneM.normal pl) >= PlaneM.distance pl.
Proof.
  intros pl. split; [reflexivity|]. split; [reflexivity|].
  intros p. apply isPointInside_true.
Qed.

(** C8: for a non-collinear triple, the plane set from [p1 p2 p3] has a unit
    normal, [p1] lies exactly on its boundary, and [isPointInside p1] is
    true. *)
Theorem setFromPoints_defining_point_inside (p1 p2 p3 : Point) (self : Plane) :
  ~ collinear p1 p2 p3 ->
  let pl := PlaneM.setFromPoints p1 p2 p3 self in
  Vec.squaredNorm (PlaneM.normal pl) = 1
  /\ Vec.dot p1 (PlaneM.normal pl) = PlaneM.distance pl
  /\ PlaneM.isPointInside pl p1 = true.
Proof.
  intros Hnc pl. split; [|split].
  - apply normalized_unit. exact Hnc.
  - unfold pl, PlaneM.setFromPoints, PlaneM.normal, PlaneM.distance; simpl.
    apply dot_comm.
  - apply isPointInside_true.
    unfold pl, PlaneM.setFromPoints, PlaneM.normal, PlaneM.distance; simpl.
    rewrite dot_comm. apply Rge_refl.
Qed.

Lemma setFromPoints_defining_point_inside_witness :
  ~ collinear (mkPoint 0 0 0) (mkPoint 1 0 0) (mkPoint 0 1 0)
  /\ PlaneM.isPointInside
       (PlaneM.setFromPoints (mkPoint 0 0 0) (mkPoint 1 0 0) (mkPoint 0 1 0)
                             (mkPlane Vec.zero 0))
       (mkPoint 0 0 0) = true.
Proof.
  assert (H : ~ collinear (mkPoint 0 0 0) (mkPoint 1 0 0) (mkPoint 0 1 0)).
  { unfold collinear, Vec.cross, Vec.sub, Vec.zero; simpl.
    intros Heq. apply (f_equal pz) in Heq. simpl in Heq. lra. }
  split; [exact H|].
  apply (setFromPoints_defining_point_inside _ _ _ (mkPlane Vec.zero 0) H).
Defined.

(** ** CameraModel: intrinsics *)

Lemma setIntrinsicsFromFoV_run (h v mn mx : R) (cm : CameraModel) :
  Camera.setIntrinsicsFromFoV h v mn mx cm
  = Some (tt, with_initialized true (with_corners (code_corners h v mn mx) cm)).
Proof. reflexivity. Qed.

Lemma code_corners_spec (h v mn mx : R) :
  code_corners h v mn mx = spec_corners h v mn mx.
Proof.
  unfold code_corners, spec_corners, spec_corners_at, spec_corner; simpl.
  repeat (f_equal; try (apply point_eq; simpl; ring)).
Qed.

(** C3: [setIntrinsicsFromFoV] always returns, stores exactly the eight
    corners of the specification (four at [min_distance], then four at
    [max_distance], in the sign order (+,+), (+,-), (-,-), (-,+)), sets
    [initialized_] and touches nothing else; whatever corners were stored
    before are discarded, so a second call leaves only its own eight. *)
Theorem setIntrinsicsFromFoV_corners
    (h v mn mx : R) (cm : CameraModel) :
  exists cm' : CameraModel,
    Camera.setIntrinsicsFromFoV h v mn mx cm = Some (tt, cm')
    /\ untransformed_corners_ cm' = spec_corners h v mn mx
    /\ length (untransformed_corners_ cm') = 8%nat
    /\ initialized_ cm' = true
    /\ (T_C_B_ cm', T_G_C_ cm', bounding_planes_ cm', aabb_min_ cm',
        aabb_max_ cm')
       = (T_C_B_ cm, T_G_C_ cm, bounding_planes_ cm, aabb_min_ cm,
          aabb_max_ cm)
    /\ forall h2 v2 mn2 mx2 : R,
         exists cm'' : CameraModel,
           Camera.setIntrinsicsFromFoV h2 v2 mn2 mx2 cm' = Some (tt, cm'')
           /\ untransformed_corners_ cm'' = spec_corners h2 v2 mn2 mx2.
Proof.
  eexists. split; [apply setIntrinsicsFromFoV_run|].
  simpl. split; [apply code_corners_spec|].
  repeat split.
  intros h2 v2 mn2 mx2. eexists.
  split; [apply setIntrinsicsFromFoV_run|].
  simpl. apply code_corners_spec.
Qed.

(** ** CameraModel: poses before initialization *)

Lemma calculateBoundingPlanes_uninitialized (cm : CameraModel) :
  initialized_ cm = false ->
  Camera.calculateBoundingPlanes cm = Some (tt, cm).
Proof.
  intros Hi. unfold Camera.calculateBoundingPlanes.
  unfold mbind, M_bind, gets. rewrite Hi. reflexivity.
Qed.

Lemma setCameraPose_uninitialized (P : Transformation) (cm : CameraModel) :
  initialized_ cm = false ->
  Camera.setCameraPose P cm = Some (tt, with_T_G_C P cm).
Proof.
  intros Hi. unfold Camera.setCameraPose, mbind, M_bind, modify.
  apply calculateBoundingPlanes_uninitialized. exact Hi.
Qed.

Lemma setBodyPose_uninitialized (P : Transformation) (cm : CameraModel) :
  initialized_ cm = false ->
  Camera.setBodyPose P cm
  = Some (tt, with_T_G_C (Tf.compose P (Tf.inverse (T_C_B_ cm))) cm).
Proof.
  intros Hi. unfold Camera.setBodyPose, mbind, M_bind, gets.
  apply setCameraPose_uninitialized. exact Hi.
Qed.

(** C7: on a camera whose intrinsics were never set, [setCameraPose] and
    [setBodyPose] return normally and leave [bounding_planes_] as it was
    (empty, on a newly constructed camera). *)
Theorem pose_setters_before_intrinsics
    (P : Transformation) (cm : CameraModel) :
  initialized_ cm = false ->
  (exists cm1 : CameraModel,
      Camera.setCameraPose P cm = Some (tt, cm1)
      /\ bounding_planes_ cm1 = bounding_planes_ cm
      /\ initialized_ cm1 = false)
  /\ (exists cm2 : CameraModel,
         Camera.setBodyPose P cm = Some (tt, cm2)
         /\ bounding_planes_ cm2 = bounding_planes_ cm
         /\ initialized_ cm2 = false).
Proof.
  intros Hi. split; eexists.
  - split; [apply setCameraPose_uninitialized; exact Hi|]. simpl. auto.
  - split; [apply setBodyPose_uninitialized; exact Hi|]. simpl. auto.
Qed.

Lemma pose_setters_before_intrinsics_witness :
  initialized_ (Camera.new Vec.zero Vec.zero) = false
  /\ (exists cm1 : CameraModel,
         Camera.setCameraPose Tf.identity (Camera.new Vec.zero Vec.zero)
         = Some (tt, cm1)
         /\ bounding_planes_ cm1 = []
         /\ initialized_ cm1 = false)
  /\ (exists cm2 : CameraModel,
         Camera.setBodyPose Tf.identity (Camera.new Vec.zero Vec.zero)
         = Some (tt, cm2)
         /\ bounding_planes_ cm2 = []
         /\ initialized_ cm2 = false).
Proof.
  split; [reflexivity|].
  exact (pose_setters_before_intrinsics
           Tf.identity (Camera.new Vec.zero Vec.zero) eq_refl).
Defined.

(** *** What a recomputation may change *)

Lemma bind_Some {A B : Type} (m : M A) (f : A -> M B) (cm : CameraModel)
    (r : B * CameraModel) :
  (m ≫= f) cm = Some r
  <-> exists (x : A) (cm1 : CameraModel), m cm = Some (x, cm1) /\ f x cm1 = Some r.
Proof.
  unfold mbind, M_bind. split.
  - destruct (m cm) as [[x cm1]|]; [|discriminate].
    intros H. exists x, cm1. split; [reflexivity | exact H].
  - intros (x & cm1 & -> & H). exact H.
Qed.

Lemma at_index_Some {A : Type} (v : list A) (i : nat) (cm : CameraModel)
    (r : A * CameraModel) :
  at_index v i cm = Some r -> v !! i = Some (fst r) /\ snd r = cm.
Proof.
  unfold at_index. destruct (v !! i) as [x|]; [|discriminate].
  intros [= <-]. split; reflexivity.
Qed.

Lemma same_config_refl (cm : CameraModel) : same_config cm cm.
Proof. repeat split. Qed.

Lemma same_config_trans (a b c : CameraModel) :
  same_config a b -> same_config b c -> same_config a c.
Proof.
  unfold same_config. intros (? & ? & ? & ?) (? & ? & ? & ?).
  repeat split; congruence.
Qed.

Lemma set_plane_frame (i : nat) (tc : list Point) (a b c : nat)
    (cm cm' : CameraModel) :
  Camera.set_plane i tc a b c cm = Some (tt, cm') ->
  same_config cm cm'
  /\ length (bounding_planes_ cm') = length (bounding_planes_ cm).
Proof.
  unfold Camera.set_plane. intros H.
  apply bind_Some in H as (planes & cm1 & [= <- <-] & H).
  apply bind_Some in H as (pl & cm2 & H2 & H).
  apply at_index_Some in H2 as [_ H2]; simpl in H2; subst cm2.
  apply bind_Some in H as (p1 & cm3 & H3 & H).
  apply at_index_Some in H3 as [_ H3]; simpl in H3; subst cm3.
  apply bind_Some in H as (p2 & cm4 & H4 & H).
  apply at_index_Some in H4 as [_ H4]; simpl in H4; subst cm4.
  apply bind_Some in H as (p3 & cm5 & H5 & H).
  apply at_index_Some in H5 as [_ H5]; simpl in H5; subst cm5.
  injection H as <-. split; [repeat split|].
  simpl. apply length_insert.
Qed.

Lemma calculateBoundingPlanes_frame (cm cm' : CameraModel) :
  Camera.calculateBoundingPlanes cm = Some (tt, cm') -> same_config cm cm'.
Proof.
  unfold Camera.calculateBoundingPlanes. intros H.
  apply bind_Some in H as (ini & cm1 & [= <- <-] & H).
  destruct (initialized_ cm); simpl in H;
    [|injection H as <-; apply same_config_refl].
  apply bind_Some in H as (corners & cm1 & [= <- <-] & H).
  apply bind_Some in H as ([] & cm1 & Hc & H).
  assert (cm1 = cm) as ->.
  { unfold CHECK_EQ in Hc. destruct (Nat.eqb _ _); [|discriminate].
    injection Hc as <-. reflexivity. }
  apply bind_Some in H as (planes & cm1 & [= <- <-] & H).
  apply bind_Some in H as ([] & cm1 & Hr & H).
  assert (same_config cm cm1) as Hs1.
  { destruct (decide (bounding_planes_ cm = [])); injection Hr as <-;
      repeat split. }
  apply bind_Some in H as (T & cm2 & [= <- <-] & H).
  repeat (apply bind_Some in H as ([] & ? & ?%set_plane_frame & H)).
  injection H as <-.
  repeat match goal with
         | Hp : same_config _ _ /\ _ |- _ => destruct Hp as [Hp _]
         end.
  repeat (eapply same_config_trans; [eassumption|]).
  repeat split.
Qed.

(** On any state at all, a [setCameraPose] that returns has stored the
    pose and kept the flag, the extrinsics and the corners. *)
Lemma setCameraPose_frame (P : Transformation) (cm cm' : CameraModel) :
  Camera.setCameraPose P cm = Some (tt, cm') ->
  same_config (with_T_G_C P cm) cm' /\ T_G_C_ cm' = P.
Proof.
  unfold Camera.setCameraPose. intros H.
  apply bind_Some in H as ([] & cm1 & [= <-] & H).
  apply calculateBoundingPlanes_frame in H.
  split; [exact H|]. destruct H as (_ & _ & HT & _). exact HT.
Qed.

(** ** CameraModel: recomputation on an initialized camera *)

Lemma list_length_8 {A : Type} (l : list A) :
  length l = 8%nat ->
  exists a0 a1 a2 a3 a4 a5 a6 a7 : A, l = [a0; a1; a2; a3; a4; a5; a6; a7].
Proof.
  intros H.
  do 8 (destruct l as [|? l]; [discriminate H|]).
  destruct l; [|discriminate H].
  repeat eexists.
Qed.

Lemma calculateBoundingPlanes_initialized
    (cm : CameraModel) (c0 c1 c2 c3 c4 c5 c6 c7 : Point) :
  initialized_ cm = true ->
  untransformed_corners_ cm = [c0; c1; c2; c3; c4; c5; c6; c7] ->
  planes_ok cm ->
  let T := Tf.transform (T_G_C_ cm) in
  let aabb :=
    Camera.aabb_loops (map T [c0; c1; c2; c3; c4; c5; c6; c7]) initial_aabb in
  Camera.calculateBoundingPlanes cm
  = Some (tt,
          with_aabb (fst aabb) (snd aabb)
            (with_planes
               (frustum_planes (T c0) (T c1) (T c2) (T c3)
                               (T c4) (T c5) (T c6) (T c7)) cm)).
Proof.
  destruct cm as [ini TCB TGC corners planes mn mx].
  unfold planes_ok; simpl.
  intros -> -> [-> | Hlen]; [reflexivity|].
  do 6 (destruct planes as [|? planes]; [discriminate Hlen|]).
  destruct planes; [|discriminate Hlen].
  reflexivity.
Qed.

Lemma setCameraPose_initialized
    (P : Transformation) (cm : CameraModel) (c0 c1 c2 c3 c4 c5 c6 c7 : Point) :
  initialized_ cm = true ->
  untransformed_corners_ cm = [c0; c1; c2; c3; c4; c5; c6; c7] ->
  planes_ok cm ->
  let T := Tf.transform P in
  let aabb :=
    Camera.aabb_loops (map T [c0; c1; c2; c3; c4; c5; c6; c7]) initial_aabb in
  Camera.setCameraPose P cm
  = Some (tt,
          with_aabb (fst aabb) (snd aabb)
            (with_planes
               (frustum_planes (T c0) (T c1) (T c2) (T c3)
                               (T c4) (T c5) (T c6) (T c7))
               (with_T_G_C P cm))).
Proof.
  intros Hi Hc Hp. unfold Camera.setCameraPose, mbind, M_bind, modify.
  apply (calculateBoundingPlanes_initialized (with_T_G_C P cm)); assumption.
Qed.

(** Every method keeps the shape, and on a well-shaped state no pose
    setter aborts. *)
Lemma wf_new (mn mx : Point) : wf (Camera.new mn mx).
Proof. split; [discriminate|left; reflexivity]. Qed.

Lemma wf_setIntrinsicsFromFoV (h v mn mx : R) (cm : CameraModel) :
  wf cm ->
  exists cm', Camera.setIntrinsicsFromFoV h v mn mx cm = Some (tt, cm')
              /\ wf cm' /\ initialized_ cm' = true.
Proof.
  intros [_ Hp]. eexists. split; [apply setIntrinsicsFromFoV_run|].
  split; [split|]; auto.
Qed.

Lemma wf_setExtrinsics (T : Transformation) (cm : CameraModel) :
  wf cm -> wf (with_T_C_B T cm).
Proof. intros H; exact H. Qed.

Lemma wf_setCameraPose (P : Transformation) (cm : CameraModel) :
  wf cm ->
  exists cm', Camera.setCameraPose P cm = Some (tt, cm')
              /\ wf cm'
              /\ same_config (with_T_G_C P cm) cm'
              /\ (initialized_ cm = true ->
                  length (bounding_planes_ cm') = 6%nat).
Proof.
  intros [Hc Hp]. destruct (initialized_ cm) eqn:Hi.
  - destruct (list_length_8 _ (Hc eq_refl))
      as (c0 & c1 & c2 & c3 & c4 & c5 & c6 & c7 & Hcs).
    eexists. split; [apply setCameraPose_initialized; eassumption|].
    split; [|split; [repeat split|reflexivity]].
    split; [simpl; intros _; rewrite Hcs; reflexivity|right; reflexivity].
  - eexists. split; [apply setCameraPose_uninitialized; exact Hi|].
    split; [|split; [repeat split|discriminate]].
    split; [simpl; rewrite Hi; discriminate|exact Hp].
Qed.

Lemma wf_setBodyPose (P : Transformation) (cm : CameraModel) :
  wf cm ->
  exists cm', Camera.setBodyPose P cm = Some (tt, cm')
              /\ wf cm'
              /\ same_config
                   (with_T_G_C (Tf.compose P (Tf.inverse (T_C_B_ cm))) cm) cm'.
Proof.
  intros Hwf. unfold Camera.setBodyPose, mbind, M_bind, gets.
  destruct (wf_setCameraPose (Tf.compose P (Tf.inverse (T_C_B_ cm))) cm Hwf)
    as (cm' & Hrun & Hwf' & Hs & _).
  exists cm'. auto.
Qed.

(** C10: [setCameraPose P] returns and stores [P], so that [getCameraPose]
    yields [P] afterwards; on a camera whose intrinsics were never set the
    corners, the planes and the AABB are as before. *)
Theorem setCameraPose_stores_pose (P : Transformation) (cm : CameraModel) :
  (wf cm ->
   exists cm' : CameraModel,
     Camera.setCameraPose P cm = Some (tt, cm')
     /\ Camera.getCameraPose cm' = Some (P, cm'))
  /\ (initialized_ cm = false ->
      exists cm' : CameraModel,
        Camera.setCameraPose P cm = Some (tt, cm')
        /\ Camera.getCameraPose cm' = Some (P, cm')
        /\ untransformed_corners_ cm' = untransformed_corners_ cm
        /\ bounding_planes_ cm' = bounding_planes_ cm
        /\ aabb_min_ cm' = aabb_min_ cm
        /\ aabb_max_ cm' = aabb_max_ cm).
Proof.
  split.
  - intros Hwf.
    destruct (wf_setCameraPose P cm Hwf) as (cm' & Hrun & _ & Hs & _).
    exists cm'. split; [exact Hrun|].
    destruct Hs as (_ & _ & HT & _).
    unfold Camera.getCameraPose, gets. rewrite HT. reflexivity.
  - intros Hi. eexists.
    split; [apply setCameraPose_uninitialized; exact Hi|].
    repeat split.
Qed.

Lemma setCameraPose_stores_pose_witness :
  let P := mkTransformation Tf.qidentity (mkPoint 1 2 3) in
  let cm := Camera.new Vec.zero Vec.zero in
  wf cm
  /\ initialized_ cm = false
  /\ (exists cm' : CameraModel,
         Camera.setCameraPose P cm = Some (tt, cm')
         /\ Camera.getCameraPose cm' = Some (P, cm'))
  /\ (exists cm' : CameraModel,
         Camera.setCameraPose P cm = Some (tt, cm')
         /\ Camera.getCameraPose cm' = Some (P, cm')
         /\ untransformed_corners_ cm' = []
         /\ bounding_planes_ cm' = []
         /\ aabb_min_ cm' = Vec.zero
         /\ aabb_max_ cm' = Vec.zero).
Proof.
  intros P cm.
  split; [apply wf_new|]. split; [reflexivity|].
  split.
  - exact (proj1 (setCameraPose_stores_pose P cm) (wf_new _ _)).
  - exact (proj2 (setCameraPose_stores_pose P cm) eq_refl).
Defined.

(** ** CameraModel: point queries *)

Lemma isPointInView_loop_forallb (planes : list Plane) (p : Point) :
  Camera.isPointInView_loop planes p
  = forallb (fun pl => PlaneM.isPointInside pl p) planes.
Proof.
  induction planes as [|pl rest IH]; simpl; [reflexivity|].
  rewrite IH. destruct (PlaneM.isPointInside pl p); reflexivity.
Qed.

Lemma isPointInView_loop_true (planes : list Plane) (p : Point) :
  Camera.isPointInView_loop planes p = true
  <-> Forall (fun pl => PlaneM.isPointInside pl p = true) planes.
Proof.
  induction planes as [|pl rest IH]; simpl.
  - split; auto.
  - rewrite Forall_cons. destruct (PlaneM.isPointInside pl p); simpl.
    + rewrite IH. tauto.
    + split; [discriminate|intros [H _]; discriminate H].
Qed.

(** C2: on an initialized camera a pose update returns and leaves six
    bounding planes; [isPointInView p] then returns, does not change the
    state, and is true exactly when [isPointInside p] is true of every one
    of the six planes. *)
Theorem isPointInView_all_planes (P : Transformation) (cm : CameraModel) :
  wf cm -> initialized_ cm = true ->
  exists cm' : CameraModel,
    Camera.setCameraPose P cm = Some (tt, cm')
    /\ length (bounding_planes_ cm') = 6%nat
    /\ forall p : Point,
         exists b : bool,
           Camera.isPointInView p cm' = Some (b, cm')
           /\ (b = true <->
               Forall (fun pl => PlaneM.isPointInside pl p = true)
                      (bounding_planes_ cm')).
Proof.
  intros Hwf Hi.
  destruct (wf_setCameraPose P cm Hwf) as (cm' & Hrun & _ & _ & Hlen).
  exists cm'. split; [exact Hrun|]. split; [exact (Hlen Hi)|].
  intros p. eexists. split; [reflexivity|].
  apply isPointInView_loop_true.
Qed.

(** C9: while the plane list is empty, [isPointInView] is true of every
    point (and changes nothing). *)
Theorem isPointInView_no_planes (p : Point) (cm : CameraModel) :
  bounding_planes_ cm = [] ->
  Camera.isPointInView p cm = Some (true, cm).
Proof.
  intros H. unfold Camera.isPointInView, mbind, M_bind, gets, mret, M_ret.
  rewrite H. reflexivity.
Qed.

Lemma isPointInView_no_planes_witness :
  bounding_planes_ (Camera.new Vec.zero Vec.zero) = []
  /\ Camera.isPointInView (mkPoint (-7) 0 3) (Camera.new Vec.zero Vec.zero)
     = Some (true, Camera.new Vec.zero Vec.zero).
Proof.
  split; [reflexivity|].
  apply (isPointInView_no_planes (mkPoint (-7) 0 3)
           (Camera.new Vec.zero Vec.zero)).
  reflexivity.
Defined.

(** ** CameraModel: the bounding box *)

Section AabbFacts.

Implicit Types p c : Point.
Implicit Types i j : Vec.Axis.
Implicit Types l : list R.

Lemma coeff_setCoeff_eq p i (v : R) : Vec.coeff (Vec.setCoeff p i v) i = v.
Proof. destruct i; reflexivity. Qed.

Lemma coeff_setCoeff_ne p i j (v : R) :
  i <> j -> Vec.coeff (Vec.setCoeff p i v) j = Vec.coeff p j.
Proof. destruct i, j; intros H; try reflexivity; contradiction H; reflexivity. Qed.

Lemma setCoeff_setCoeff p i (v w : R) :
  Vec.setCoeff (Vec.setCoeff p i v) i w = Vec.setCoeff p i w.
Proof. destruct i; reflexivity. Qed.

Lemma setCoeff_coeff p i : Vec.setCoeff p i (Vec.coeff p i) = p.
Proof. destruct p, i; reflexivity. Qed.

(** The inner loop on axis [i] folds [min] and [max] over coordinate [i]
    of the corners and leaves the other coordinates alone. *)
Lemma aabb_inner_loop i (tc : list Point) (acc : Point * Point) :
  fold_left (Camera.aabb_step i) tc acc
  = (Vec.setCoeff (fst acc) i
       (fold_left Rmin (map (fun c => Vec.coeff c i) tc)
                  (Vec.coeff (fst acc) i)),
     Vec.setCoeff (snd acc) i
       (fold_left Rmax (map (fun c => Vec.coeff c i) tc)
                  (Vec.coeff (snd acc) i))).
Proof.
  revert acc. induction tc as [|c tc IH]; intros [mn mx]; simpl.
  - rewrite !setCoeff_coeff. reflexivity.
  - rewrite IH. unfold Camera.aabb_step; simpl.
    rewrite !coeff_setCoeff_eq, !setCoeff_setCoeff. reflexivity.
Qed.

Lemma aabb_loops_coeff (tc : list Point) (acc : Point * Point) i :
  Vec.coeff (fst (Camera.aabb_loops tc acc)) i
  = fold_left Rmin (map (fun c => Vec.coeff c i) tc) (Vec.coeff (fst acc) i)
  /\ Vec.coeff (snd (Camera.aabb_loops tc acc)) i
     = fold_left Rmax (map (fun c => Vec.coeff c i) tc) (Vec.coeff (snd acc) i).
Proof.
  unfold Camera.aabb_loops, Vec.axes. simpl fold_left.
  rewrite !aabb_inner_loop. cbn [fst snd].
  destruct i;
    repeat first
      [ rewrite coeff_setCoeff_eq
      | rewrite coeff_setCoeff_ne by discriminate ];
    split; reflexivity.
Qed.

Lemma fold_Rmin_le_init l (x : R) : fold_left Rmin l x <= x.
Proof.
  revert x. induction l as [|y l IH]; intros x; simpl; [lra|].
  etransitivity; [apply IH|apply Rmin_l].
Qed.

Lemma fold_Rmin_le_elem l (x y : R) : In y l -> fold_left Rmin l x <= y.
Proof.
  revert x. induction l as [|z l IH]; intros x; simpl; [tauto|].
  intros [-> | Hin]; [|apply IH, Hin].
  etransitivity; [apply fold_Rmin_le_init|apply Rmin_r].
Qed.

Lemma fold_Rmin_attained l (x : R) :
  fold_left Rmin l x = x \/ In (fold_left Rmin l x) l.
Proof.
  revert x. induction l as [|z l IH]; intros x; simpl; [left; reflexivity|].
  destruct (IH (Rmin x z)) as [Heq | Hin]; [|right; right; exact Hin].
  rewrite Heq. unfold Rmin. destruct (Rle_dec x z); auto.
Qed.

Lemma fold_Rmax_ge_init l (x : R) : x <= fold_left Rmax l x.
Proof.
  revert x. induction l as [|y l IH]; intros x; simpl; [lra|].
  etransitivity; [apply Rmax_l|apply IH].
Qed.

Lemma fold_Rmax_ge_elem l (x y : R) : In y l -> y <= fold_left Rmax l x.
Proof.
  revert x. induction l as [|z l IH]; intros x; simpl; [tauto|].
  intros [-> | Hin]; [|apply IH, Hin].
  etransitivity; [apply Rmax_r|apply fold_Rmax_ge_init].
Qed.

Lemma fold_Rmax_attained l (x : R) :
  fold_left Rmax l x = x \/ In (fold_left Rmax l x) l.
Proof.
  revert x. induction l as [|z l IH]; intros x; simpl; [left; reflexivity|].
  destruct (IH (Rmax x z)) as [Heq | Hin]; [|right; right; exact Hin].
  rewrite Heq. unfold Rmax. destruct (Rle_dec x z); auto.
Qed.

(** The box computed from a non-empty corner list whose coordinates are in
    the range of a double is the exact per-axis minimum and maximum. *)
Lemma aabb_loops_exact (tc : list Point) i :
  tc <> [] ->
  (forall c, In c tc -> in_double_range (Vec.coeff c i)) ->
  let box := Camera.aabb_loops tc initial_aabb in
  (forall c, In c tc ->
     Vec.coeff (fst box) i <= Vec.coeff c i <= Vec.coeff (snd box) i)
  /\ (exists c, In c tc /\ Vec.coeff c i = Vec.coeff (fst box) i)
  /\ (exists c, In c tc /\ Vec.coeff c i = Vec.coeff (snd box) i).
Proof.
  intros Hne Hrange box.
  destruct (aabb_loops_coeff tc initial_aabb i) as [Hmin Hmax].
  fold box in Hmin, Hmax. rewrite Hmin, Hmax.
  assert (Hinit_min : Vec.coeff (fst initial_aabb) i = DBL_MAX)
    by (destruct i; reflexivity).
  assert (Hinit_max : Vec.coeff (snd initial_aabb) i = DBL_LOWEST)
    by (destruct i; reflexivity).
  rewrite Hinit_min, Hinit_max.
  set (xs := map (fun c => Vec.coeff c i) tc).
  assert (Hin : forall c, In c tc -> In (Vec.coeff c i) xs)
    by (intros c Hc; apply in_map with (f := fun c => Vec.coeff c i), Hc).
  destruct tc as [|c0 tc']; [contradiction Hne; reflexivity|].
  split; [|split].
  - intros c Hc. split;
      [apply fold_Rmin_le_elem | apply fold_Rmax_ge_elem]; apply Hin, Hc.
  - destruct (fold_Rmin_attained xs DBL_MAX) as [Heq | Hmem].
    + exists c0. split; [left; reflexivity|]. rewrite Heq.
      pose proof (fold_Rmin_le_elem xs DBL_MAX _ (Hin c0 (or_introl eq_refl))).
      destruct (Hrange c0 (or_introl eq_refl)). lra.
    + apply in_map_iff in Hmem as (c & Hc & Hcin). exists c. auto.
  - destruct (fold_Rmax_attained xs DBL_LOWEST) as [Heq | Hmem].
    + exists c0. split; [left; reflexivity|]. rewrite Heq.
      pose proof (fold_Rmax_ge_elem xs DBL_LOWEST _ (Hin c0 (or_introl eq_refl))).
      destruct (Hrange c0 (or_introl eq_refl)). lra.
    + apply in_map_iff in Hmem as (c & Hc & Hcin). exists c. auto.
Qed.

End AabbFacts.

(** C5: on an initialized camera, a pose update whose eight transformed
    corners have coordinates in the range of a double returns, and on each
    axis [aabb_min_] is below and [aabb_max_] above every transformed
    corner, each bound being the coordinate of one of them. *)
Theorem aabb_is_min_max_of_corners (P : Transformation) (cm : CameraModel) :
  wf cm -> initialized_ cm = true ->
  let tc := map (Tf.transform P) (untransformed_corners_ cm) in
  (forall (c : Point) (i : Vec.Axis),
      In c tc -> in_double_range (Vec.coeff c i)) ->
  exists cm' : CameraModel,
    Camera.setCameraPose P cm = Some (tt, cm')
    /\ length tc = 8%nat
    /\ forall i : Vec.Axis,
         (forall c : Point, In c tc ->
            Vec.coeff (aabb_min_ cm') i <= Vec.coeff c i
            <= Vec.coeff (aabb_max_ cm') i)
         /\ (exists c : Point,
                In c tc /\ Vec.coeff c i = Vec.coeff (aabb_min_ cm') i)
         /\ (exists c : Point,
                In c tc /\ Vec.coeff c i = Vec.coeff (aabb_max_ cm') i).
Proof.
  intros [Hc Hp] Hi tc Hrange.
  destruct (list_length_8 _ (Hc Hi))
    as (c0 & c1 & c2 & c3 & c4 & c5 & c6 & c7 & Hcs).
  eexists. split; [apply setCameraPose_initialized; eassumption|].
  split; [unfold tc; rewrite length_map; exact (Hc Hi)|].
  intros i. cbn [aabb_min_ aabb_max_ with_aabb].
  assert (Htc : tc = map (Tf.transform P) [c0; c1; c2; c3; c4; c5; c6; c7])
    by (unfold tc; rewrite Hcs; reflexivity).
  rewrite <- Htc.
  apply aabb_loops_exact.
  - rewrite Htc. discriminate.
  - intros c Hin. apply Hrange, Hin.
Qed.

(** ** Transformations *)

Lemma quat_eq (a b : Quaternion) :
  qw a = qw b -> qx a = qx b -> qy a = qy b -> qz a = qz b -> a = b.
Proof. destruct a, b; simpl; intros -> -> -> ->; reflexivity. Qed.

(** Componentwise polynomial identities between quaternions or points. *)
Ltac quat_ring :=
  unfold Tf.rotate, Tf.qmul, Tf.conj, Tf.pure, Tf.vec, Tf.qidentity,
    Tf.qsquaredNorm, Vec.neg, Vec.add, Vec.zero;
  cbn [qw qx qy qz px py pz];
  first [apply quat_eq | apply point_eq];
  cbn [qw qx qy qz px py pz]; ring.

Section TfFacts.

Implicit Types a b q : Quaternion.
Implicit Types A B T : Transformation.
Implicit Types v w : Point.

Lemma rotate_identity v : Tf.rotate Tf.qidentity v = v.
Proof. destruct v. quat_ring. Qed.

Lemma add_zero_r v : Vec.add v Vec.zero = v.
Proof. destruct v. quat_ring. Qed.

Lemma transform_identity v : Tf.transform Tf.identity v = v.
Proof.
  unfold Tf.transform, Tf.identity; cbn [rotation position].
  rewrite rotate_identity. apply add_zero_r.
Qed.

End TfFacts.

(** ** The 90 degree frustum *)

Lemma tan_half_right_angle : tan (PI / 2 / 2) = 1.
Proof. replace (PI / 2 / 2) with (PI / 4) by field. exact tan_PI4. Qed.

Lemma code_corners_90 : code_corners (PI / 2) (PI / 2) 1 10 = corners90.
Proof.
  unfold code_corners, corners90. rewrite tan_half_right_angle.
  repeat (f_equal; try (apply point_eq; cbn [px py pz]; ring)).
Qed.

Lemma setIntrinsicsFromFoV_90 (g0 g1 : Point) :
  Camera.setIntrinsicsFromFoV (PI / 2) (PI / 2) 1 10 (Camera.new g0 g1)
  = Some (tt, camera90 g0 g1).
Proof.
  rewrite setIntrinsicsFromFoV_run, code_corners_90. reflexivity.
Qed.

Lemma wf_camera90 (g0 g1 : Point) : wf (camera90 g0 g1).
Proof. split; [reflexivity|left; reflexivity]. Qed.

Lemma setCameraPose_identity_90 (g0 g1 : Point) :
  exists cm' : CameraModel,
    Camera.setCameraPose Tf.identity (camera90 g0 g1) = Some (tt, cm')
    /\ bounding_planes_ cm' = planes90.
Proof.
  eexists. split.
  - apply (setCameraPose_initialized Tf.identity (camera90 g0 g1));
      [reflexivity | reflexivity | left; reflexivity].
  - cbn [bounding_planes_ with_aabb with_planes].
    rewrite !transform_identity. reflexivity.
Qed.

Lemma view_90 (g0 g1 p : Point) :
  fst <$> (Camera.setIntrinsicsFromFoV (PI / 2) (PI / 2) 1 10;;
           Camera.setCameraPose Tf.identity;;
           Camera.isPointInView p) (Camera.new g0 g1)
  = Some (Camera.isPointInView_loop planes90 p).
Proof.
  destruct (setCameraPose_identity_90 g0 g1) as (cm' & Hrun & Hpl).
  unfold mbind at 1. unfold M_bind. rewrite setIntrinsicsFromFoV_90.
  unfold mbind at 1. unfold M_bind. rewrite Hrun.
  unfold Camera.isPointInView, mbind, M_bind, gets, mret, M_ret.
  rewrite Hpl. reflexivity.
Qed.

Ltac side_test_eval :=
  unfold Vec.dot, Vec.sub, Vec.cross; cbn [px py pz]; lra.

Ltac plane_passes :=
  apply setFromPoints_inside_cross; side_test_eval.

Ltac plane_fails :=
  apply not_true_is_false;
  let H := fresh in
  intros H; apply setFromPoints_inside_cross in H; revert H; side_test_eval.

Ltac walk_planes :=
  repeat match goal with
         | |- context [PlaneM.isPointInside ?pl ?p] =>
             let H := fresh in
             first
               [ assert (H : PlaneM.isPointInside pl p = true)
                   by plane_passes
               | assert (H : PlaneM.isPointInside pl p = false)
                   by plane_fails ];
             rewrite H; cbn [negb]
         end.

(** C1: with both fields of view [PI/2], depths 1 and 10 and the identity
    pose, [(5,0,0)] is in view, [(1/2,0,0)] and [(5,100,0)] are not. *)
Theorem frustum_90deg_point_queries (g0 g1 : Point) :
  let query (p : Point) :=
    fst <$> (Camera.setIntrinsicsFromFoV (PI / 2) (PI / 2) 1 10;;
             Camera.setCameraPose Tf.identity;;
             Camera.isPointInView p) (Camera.new g0 g1) in
  query (mkPoint 5 0 0) = Some true
  /\ query (mkPoint (1 / 2) 0 0) = Some false
  /\ query (mkPoint 5 100 0) = Some false.
Proof.
  intros query. unfold query. rewrite !view_90.
  unfold planes90, frustum_planes. cbn [Camera.isPointInView_loop].
  repeat split; walk_planes; reflexivity.
Qed.

(** Which plane rejects the two outside points: the near plane rejects
    [(1/2,0,0)], and the right plane (index 3) rejects [(5,100,0)] after
    near, far and left have accepted it. *)
Lemma frustum_90deg_rejecting_planes :
  (exists near : Plane,
      planes90 !! 0%nat = Some near
      /\ PlaneM.isPointInside near (mkPoint (1 / 2) 0 0) = false)
  /\ (exists right : Plane,
         planes90 !! 3%nat = Some right
         /\ PlaneM.isPointInside right (mkPoint 5 100 0) = false)
  /\ Forall (fun pl => PlaneM.isPointInside pl (mkPoint 5 100 0) = true)
            (take 3 planes90).
Proof.
  split; [|split].
  - eexists. split; [reflexivity|]. plane_fails.
  - eexists. split; [reflexivity|]. plane_fails.
  - unfold planes90, frustum_planes. cbn [take].
    repeat constructor; plane_passes.
Qed.

Lemma DBL_MAX_ge_10 : 10 <= DBL_MAX.
Proof. unfold DBL_MAX. apply IZR_le. vm_compute. discriminate. Qed.

Lemma map_transform_identity (l : list Point) :
  map (Tf.transform Tf.identity) l = l.
Proof.
  induction l as [|c l IH]; cbn [map]; [reflexivity|].
  rewrite transform_identity, IH. reflexivity.
Qed.

Lemma corners90_in_double_range (c : Point) (i : Vec.Axis) :
  In c corners90 -> in_double_range (Vec.coeff c i).
Proof.
  pose proof DBL_MAX_ge_10 as Hbig.
  unfold corners90, in_double_range, DBL_LOWEST. cbn [In].
  intros Hin.
  repeat (destruct Hin as [<- | Hin]; [destruct i; cbn [Vec.coeff px py pz]; lra|]).
  contradiction Hin.
Qed.

Lemma isPointInView_all_planes_witness :
  wf (camera90 Vec.zero Vec.zero)
  /\ initialized_ (camera90 Vec.zero Vec.zero) = true
  /\ exists cm' : CameraModel,
       Camera.setCameraPose Tf.identity (camera90 Vec.zero Vec.zero)
       = Some (tt, cm')
       /\ length (bounding_planes_ cm') = 6%nat
       /\ forall p : Point,
            exists b : bool,
              Camera.isPointInView p cm' = Some (b, cm')
              /\ (b = true <->
                  Forall (fun pl => PlaneM.isPointInside pl p = true)
                         (bounding_planes_ cm')).
Proof.
  split; [apply wf_camera90|]. split; [reflexivity|].
  exact (isPointInView_all_planes Tf.identity (camera90 Vec.zero Vec.zero)
           (wf_camera90 _ _) eq_refl).
Defined.

Lemma aabb_is_min_max_of_corners_witness :
  let cm := camera90 Vec.zero Vec.zero in
  let tc := map (Tf.transform Tf.identity) (untransformed_corners_ cm) in
  wf cm
  /\ initialized_ cm = true
  /\ (forall (c : Point) (i : Vec.Axis),
         In c tc -> in_double_range (Vec.coeff c i))
  /\ exists cm' : CameraModel,
       Camera.setCameraPose Tf.identity cm = Some (tt, cm')
       /\ length tc = 8%nat
       /\ forall i : Vec.Axis,
            (forall c : Point, In c tc ->
               Vec.coeff (aabb_min_ cm') i <= Vec.coeff c i
               <= Vec.coeff (aabb_max_ cm') i)
            /\ (exists c : Point,
                   In c tc /\ Vec.coeff c i = Vec.coeff (aabb_min_ cm') i)
            /\ (exists c : Point,
                   In c tc /\ Vec.coeff c i = Vec.coeff (aabb_max_ cm') i).
Proof.
  intros cm tc.
  assert (Hrange : forall (c : Point) (i : Vec.Axis),
             In c tc -> in_double_range (Vec.coeff c i)).
  { intros c i. unfold tc. rewrite map_transform_identity.
    apply corners90_in_double_range. }
  split; [apply wf_camera90|]. split; [reflexivity|]. split; [exact Hrange|].
  exact (aabb_is_min_max_of_corners Tf.identity cm
           (wf_camera90 _ _) eq_refl Hrange).
Defined.

Ltac min_max_eval :=
  repeat match goal with
         | |- context [Rmin ?a ?b] =>
             first [ rewrite (Rmin_left a b) by lra
                   | rewrite (Rmin_right a b) by lra ]
         | |- context [Rmax ?a ?b] =>
             first [ rewrite (Rmax_left a b) by lra
                   | rewrite (Rmax_right a b) by lra ]
         end.

(** The box of the 90 degree frustum at the identity pose. *)
Lemma aabb_90 :
  Camera.aabb_loops corners90 initial_aabb
  = (mkPoint 1 (-10) (-10), mkPoint 10 10 10).
Proof.
  pose proof DBL_MAX_ge_10 as Hbig.
  assert (Hc : forall i,
             Vec.coeff (fst (Camera.aabb_loops corners90 initial_aabb)) i
             = Vec.coeff (mkPoint 1 (-10) (-10)) i
             /\ Vec.coeff (snd (Camera.aabb_loops corners90 initial_aabb)) i
                = Vec.coeff (mkPoint 10 10 10) i).
  { intros i.
    destruct (aabb_loops_coeff corners90 initial_aabb i) as [-> ->].
    unfold corners90, initial_aabb, Vec.setConstant, DBL_LOWEST.
    destruct i; cbn [map fold_left fst snd Vec.coeff px py pz];
      min_max_eval; split; reflexivity. }
  destruct (Camera.aabb_loops corners90 initial_aabb) as [mn mx].
  cbn [fst snd] in Hc.
  f_equal; apply point_eq.
  - apply (Hc Vec.AxisX).
  - apply (Hc Vec.AxisY).
  - apply (Hc Vec.AxisZ).
  - apply (Hc Vec.AxisX).
  - apply (Hc Vec.AxisY).
  - apply (Hc Vec.AxisZ).
Qed.

(** ** Call sequences *)

Lemma run_call_wf (c : Call) (cm : CameraModel) :
  wf cm -> exists cm', run_call c cm = Some (tt, cm') /\ wf cm'.
Proof.
  intros Hwf. destruct c as [h v mn mx | rx ry f mn mx | T | P | P];
    cbn [run_call].
  - destruct (wf_setIntrinsicsFromFoV h v mn mx cm Hwf) as (cm' & ? & ? & _).
    eauto.
  - unfold Camera.setIntrinsicsFromFocalLength.
    destruct (wf_setIntrinsicsFromFoV
                (2 * atan (rx / (2 * f))) (2 * atan (ry / (2 * f))) mn mx
                cm Hwf) as (cm' & ? & ? & _).
    eauto.
  - eexists. split; [reflexivity|]. apply wf_setExtrinsics, Hwf.
  - destruct (wf_setCameraPose P cm Hwf) as (cm' & ? & ? & _). eauto.
  - destruct (wf_setBodyPose P cm Hwf) as (cm' & ? & ? & _). eauto.
Qed.

(** From a new camera no sequence of calls aborts, and the shape of the
    corner and plane vectors is kept. *)
Lemma run_calls_wf (cs : list Call) (cm : CameraModel) :
  wf cm -> exists cm', run_calls cs cm = Some (tt, cm') /\ wf cm'.
Proof.
  revert cm. induction cs as [|c cs IH]; intros cm Hwf; cbn [run_calls].
  - eexists. split; [reflexivity | exact Hwf].
  - destruct (run_call_wf c cm Hwf) as (cm1 & Hrun1 & Hwf1).
    destruct (IH cm1 Hwf1) as (cm' & Hrun & Hwf').
    exists cm'. split; [|exact Hwf'].
    apply bind_Some. exists tt, cm1. auto.
Qed.

(** As long as no pose is set after the intrinsics, the plane list stays
    empty and every point is reported in view. *)
Lemma run_calls_no_planes (cs : list Call) (cm : CameraModel) :
  bounding_planes_ cm = [] ->
  never_recomputes (initialized_ cm) cs = true ->
  exists cm', run_calls cs cm = Some (tt, cm')
              /\ bounding_planes_ cm' = []
              /\ forall p : Point, Camera.isPointInView p cm' = Some (true, cm').
Proof.
  revert cm. induction cs as [|c cs IH]; intros cm Hpl Hnr; cbn [run_calls].
  - exists cm. split; [reflexivity|]. split; [exact Hpl|].
    intros p. unfold Camera.isPointInView, mbind, M_bind, gets, mret, M_ret.
    rewrite Hpl. reflexivity.
  - assert (Hstep : exists cm1,
               run_call c cm = Some (tt, cm1)
               /\ bounding_planes_ cm1 = []
               /\ never_recomputes (initialized_ cm1) cs = true).
    { destruct c as [h v mn mx | rx ry f mn mx | T | P | P];
        cbn [run_call never_recomputes] in *.
      - eexists. split; [apply setIntrinsicsFromFoV_run|].
        split; [exact Hpl | exact Hnr].
      - eexists. split; [apply setIntrinsicsFromFoV_run|].
        split; [exact Hpl | exact Hnr].
      - eexists. split; [reflexivity|].
        split; [exact Hpl | exact Hnr].
      - apply andb_prop in Hnr as [Hi Hnr].
        apply negb_true_iff in Hi.
        eexists. split; [apply setCameraPose_uninitialized, Hi|].
        split; [exact Hpl | exact Hnr].
      - apply andb_prop in Hnr as [Hi Hnr].
        apply negb_true_iff in Hi.
        eexists. split; [apply setBodyPose_uninitialized, Hi|].
        split; [exact Hpl | exact Hnr]. }
    destruct Hstep as (cm1 & Hrun1 & Hpl1 & Hnr1).
    destruct (IH cm1 Hpl1 Hnr1) as (cm' & Hrun & Hres).
    exists cm'. split; [|exact Hres].
    apply bind_Some. exists tt, cm1. auto.
Qed.

(** * Further properties of the planes *)

Section PlaneGeometry.

Implicit Types a b p : Point.
Implicit Types self pl : Plane.

(** [normalized] multiplies by a positive factor. *)
Lemma normalized_scaled a :
  exists k : R, 0 < k /\ Vec.normalized a = scaled k a.
Proof.
  unfold Vec.normalized.
  destruct (Rlt_dec 0 (Vec.squaredNorm a)) as [Hpos | _].
  - exists (/ sqrt (Vec.squaredNorm a)). split.
    + apply Rinv_0_lt_compat, sqrt_lt_R0, Hpos.
    + unfold Vec.div, scaled, Rdiv. apply point_eq; cbn [px py pz]; ring.
  - exists 1. split; [lra|].
    unfold scaled. apply point_eq; cbn [px py pz]; ring.
Qed.

Lemma dot_scaled_r (k : R) a b : Vec.dot a (scaled k b) = k * Vec.dot a b.
Proof. unfold Vec.dot, scaled; cbn [px py pz]; ring. Qed.

Lemma dot_scaled_l (k : R) a b : Vec.dot (scaled k a) b = k * Vec.dot a b.
Proof. unfold Vec.dot, scaled; cbn [px py pz]; ring. Qed.

(** Signed offset of [p] from the plane through [p1 p2 p3], up to the
    positive factor of the normalization. *)
Lemma setFromPoints_offset (p1 p2 p3 : Point) self p :
  exists k : R,
    0 < k
    /\ Vec.dot p (PlaneM.normal (PlaneM.setFromPoints p1 p2 p3 self))
       - PlaneM.distance (PlaneM.setFromPoints p1 p2 p3 self)
       = k * Vec.dot (Vec.sub p p1)
                     (Vec.cross (Vec.sub p2 p1) (Vec.sub p3 p1)).
Proof.
  unfold PlaneM.setFromPoints, PlaneM.normal, PlaneM.distance.
  cbn [normal_ distance_].
  destruct (normalized_scaled (Vec.cross (Vec.sub p2 p1) (Vec.sub p3 p1)))
    as (k & Hk & ->).
  exists k. split; [exact Hk|].
  rewrite dot_scaled_r, dot_scaled_l.
  unfold Vec.dot, Vec.sub, Vec.cross; cbn [px py pz]; ring.
Qed.

End PlaneGeometry.

(** X2: exchanging the second and third point turns the plane over: the new
    plane accepts exactly the points with [dot p normal <= distance] of the
    old one, so only the points of the plane itself are accepted by both. *)
Theorem setFromPoints_winding_reversed
    (p1 p2 p3 p : Point) (self self' : Plane) :
  let pl := PlaneM.setFromPoints p1 p2 p3 self in
  let rev := PlaneM.setFromPoints p1 p3 p2 self' in
  (PlaneM.isPointInside rev p = true
   <-> Vec.dot p (PlaneM.normal pl) <= PlaneM.distance pl)
  /\ (PlaneM.isPointInside pl p = true /\ PlaneM.isPointInside rev p = true
      <-> Vec.dot p (PlaneM.normal pl) = PlaneM.distance pl).
Proof.
  intros pl rev.
  destruct (setFromPoints_offset p1 p2 p3 self p) as (k & Hk & Hoff).
  fold pl in Hoff.
  assert (Hrev : PlaneM.isPointInside rev p = true
                 <-> Vec.dot p (PlaneM.normal pl) <= PlaneM.distance pl).
  { unfold rev. rewrite setFromPoints_inside_cross.
    set (t := Vec.dot (Vec.sub p p1)
                      (Vec.cross (Vec.sub p2 p1) (Vec.sub p3 p1))) in *.
    replace (Vec.dot (Vec.sub p p1)
                     (Vec.cross (Vec.sub p3 p1) (Vec.sub p2 p1)))
      with (- t)
      by (unfold t, Vec.dot, Vec.sub, Vec.cross; cbn [px py pz]; ring).
    split; intros H.
    - assert (0 <= k * - t) by (apply Rmult_le_pos; lra). lra.
    - assert (k * t <= 0) by lra.
      destruct (Rle_dec t 0) as [|Hn]; [lra|].
      assert (0 < k * t) by (apply Rmult_lt_0_compat; lra). lra. }
  split; [exact Hrev|].
  rewrite Hrev, isPointInside_true. split; [intros []|intros ->]; lra.
Qed.


(** The box of the two loops encloses every corner it was computed from,
    whatever their size. *)
Lemma aabb_loops_encloses (tc : list Point) (c : Point) (i : Vec.Axis) :
  In c tc ->
  Vec.coeff (fst (Camera.aabb_loops tc initial_aabb)) i <= Vec.coeff c i
  <= Vec.coeff (snd (Camera.aabb_loops tc initial_aabb)) i.
Proof.
  intros Hin.
  destruct (aabb_loops_coeff tc initial_aabb i) as [-> ->].
  assert (Hm : In (Vec.coeff c i) (map (fun c => Vec.coeff c i) tc))
    by (apply in_map with (f := fun c => Vec.coeff c i), Hin).
  split; [apply fold_Rmin_le_elem | apply fold_Rmax_ge_elem]; exact Hm.
Qed.

(** * The camera after intrinsics and a pose *)

Lemma tan_half_fov_pos (fov : R) : 0 < fov < PI -> 0 < tan (fov / 2).
Proof. intros [H0 H1]. apply tan_gt_0; lra. Qed.

(** State after [setIntrinsicsFromFoV] and [setCameraPose] on a well-shaped
    camera. *)
Lemma configure_and_pose (h v mn mx : R) (P : Transformation)
    (cm : CameraModel) :
  wf cm ->
  exists cm' : CameraModel,
    (Camera.setIntrinsicsFromFoV h v mn mx;; Camera.setCameraPose P) cm
    = Some (tt, cm')
    /\ bounding_planes_ cm' = posed_planes h v mn mx P
    /\ aabb_min_ cm'
       = fst (Camera.aabb_loops (posed_corners h v mn mx P) initial_aabb)
    /\ aabb_max_ cm'
       = snd (Camera.aabb_loops (posed_corners h v mn mx P) initial_aabb)
    /\ untransformed_corners_ cm' = code_corners h v mn mx
    /\ T_G_C_ cm' = P
    /\ T_C_B_ cm' = T_C_B_ cm.
Proof.
  intros [_ Hp]. eexists. split.
  - apply bind_Some. eexists tt, _.
    split; [apply setIntrinsicsFromFoV_run|].
    apply setCameraPose_initialized; [reflexivity | reflexivity | exact Hp].
  - repeat split.
Qed.

Lemma valid_intrinsics_90 : valid_intrinsics (PI / 2) (PI / 2) 1 10.
Proof. pose proof PI_RGT_0. unfold valid_intrinsics. lra. Qed.

(** * Pose updates *)

Lemma setCameraPose_twice (P1 P2 : Transformation) (cm : CameraModel) :
  wf cm ->
  (Camera.setCameraPose P1;; Camera.setCameraPose P2) cm
  = Camera.setCameraPose P2 cm.
Proof.
  intros [Hc Hp]. unfold mbind at 1. unfold M_bind.
  destruct (initialized_ cm) eqn:Hi.
  - destruct (list_length_8 _ (Hc eq_refl))
      as (c0 & c1 & c2 & c3 & c4 & c5 & c6 & c7 & Hcs).
    rewrite (setCameraPose_initialized P1 cm c0 c1 c2 c3 c4 c5 c6 c7 Hi Hcs Hp).
    rewrite (setCameraPose_initialized P2 cm c0 c1 c2 c3 c4 c5 c6 c7 Hi Hcs Hp).
    cbv zeta.
    erewrite (setCameraPose_initialized P2 _ c0 c1 c2 c3 c4 c5 c6 c7);
      [reflexivity | exact Hi | exact Hcs | right; reflexivity].
  - rewrite (setCameraPose_uninitialized P1 cm Hi).
    rewrite (setCameraPose_uninitialized P2 cm Hi).
    rewrite setCameraPose_uninitialized by exact Hi.
    reflexivity.
Qed.

(** X10: a pose update recomputes everything from the corners and the new
    pose: two updates in a row leave the state of the second alone. *)
Theorem setCameraPose_overwrites
    (P1 P2 : Transformation) (cm : CameraModel) :
  wf cm ->
  (Camera.setCameraPose P1;; Camera.setCameraPose P2) cm
  = Camera.setCameraPose P2 cm
  /\ exists cm' : CameraModel, Camera.setCameraPose P2 cm = Some (tt, cm').
Proof.
  intros Hwf. split; [apply setCameraPose_twice, Hwf|].
  destruct (wf_setCameraPose P2 cm Hwf) as (cm' & Hrun & _). eauto.
Qed.

Lemma setCameraPose_overwrites_witness :
  let P1 := mkTransformation (mkQuat 0 1 0 0) (mkPoint 1 2 3) in
  let cm := camera90 Vec.zero Vec.zero in
  wf cm
  /\ (Camera.setCameraPose P1;; Camera.setCameraPose Tf.identity) cm
     = Camera.setCameraPose Tf.identity cm.
Proof.
  intros P1 cm. split; [apply wf_camera90|].
  exact (proj1 (setCameraPose_overwrites P1 Tf.identity cm (wf_camera90 _ _))).
Defined.

(** * What configuration calls leave alone *)

(** X12: the three configuration calls do not recompute anything: the
    answers of [isPointInView], [getAabb] and [getCameraPose] are the same
    before and after, until the next pose update. *)
Theorem configuration_leaves_queries
    (h v mn mx rx ry focal : R) (T : Transformation) (cm : CameraModel) :
  let answers (s : CameraModel) :=
    (fun p : Point => fst <$> Camera.isPointInView p s,
     fst <$> Camera.getAabb s,
     fst <$> Camera.getCameraPose s) in
  (exists cm' : CameraModel,
      Camera.setIntrinsicsFromFoV h v mn mx cm = Some (tt, cm')
      /\ answers cm' = answers cm)
  /\ (exists cm' : CameraModel,
         Camera.setIntrinsicsFromFocalLength rx ry focal mn mx cm
         = Some (tt, cm')
         /\ answers cm' = answers cm)
  /\ (exists cm' : CameraModel,
         Camera.setExtrinsics T cm = Some (tt, cm')
         /\ answers cm' = answers cm).
Proof.
  intros answers. split; [|split]; eexists.
  - split; [apply setIntrinsicsFromFoV_run | reflexivity].
  - split; [apply setIntrinsicsFromFoV_run | reflexivity].
  - split; [reflexivity | reflexivity].
Qed.

(** * Call sequences from a new camera *)

(** X13: from a newly constructed camera no sequence of setter calls
    aborts: the corner count check never fails and no plane is accessed
    out of range; afterwards there are eight corners if the camera is
    initialized, and no planes or six. *)
Theorem setters_never_abort (g0 g1 : Point) (cs : list Call) :
  exists cm' : CameraModel,
    run_calls cs (Camera.new g0 g1) = Some (tt, cm')
    /\ (initialized_ cm' = true ->
        length (untransformed_corners_ cm') = 8%nat)
    /\ (bounding_planes_ cm' = []
        \/ length (bounding_planes_ cm') = 6%nat).
Proof.
  destruct (run_calls_wf cs (Camera.new g0 g1) (wf_new g0 g1))
    as (cm' & Hrun & Hc & Hp).
  exists cm'. split; [exact Hrun|]. split; [exact Hc | exact Hp].
Qed.

(** X14: from a newly constructed camera, as long as no pose is set after
    the intrinsics, the plane list stays empty and every point is reported
    in view. *)
Theorem no_pose_after_intrinsics_all_in_view
    (g0 g1 : Point) (cs : list Call) :
  never_recomputes false cs = true ->
  exists cm' : CameraModel,
    run_calls cs (Camera.new g0 g1) = Some (tt, cm')
    /\ bounding_planes_ cm' = []
    /\ forall p : Point, Camera.isPointInView p cm' = Some (true, cm').
Proof.
  intros Hnr.
  apply (run_calls_no_planes cs (Camera.new g0 g1)); [reflexivity|exact Hnr].
Qed.

Lemma no_pose_after_intrinsics_all_in_view_witness :
  let cs := [ CallSetBodyPose Tf.identity;
              CallSetExtrinsics Tf.identity;
              CallSetCameraPose (mkTransformation Tf.qidentity
                                                  (mkPoint 1 2 3));
              CallSetIntrinsicsFromFoV (PI / 2) (PI / 2) 1 10 ] in
  never_recomputes false cs = true
  /\ exists cm' : CameraModel,
       run_calls cs (Camera.new Vec.zero Vec.zero) = Some (tt, cm')
       /\ bounding_planes_ cm' = []
       /\ forall p : Point, Camera.isPointInView p cm' = Some (true, cm').
Proof.
  intros cs. split; [reflexivity|].
  exact (no_pose_after_intrinsics_all_in_view Vec.zero Vec.zero cs eq_refl).
Defined.

(** * The box, without assumptions on sizes *)

(** X15: after a pose update on an initialized camera the box returned by
    [getAabb] encloses all eight transformed corners and is not inverted on
    any axis, whatever the size of the coordinates. *)
Theorem aabb_encloses_corners (P : Transformation) (cm : CameraModel) :
  wf cm -> initialized_ cm = true ->
  exists (cm' : CameraModel) (box_min box_max : Point),
    Camera.setCameraPose P cm = Some (tt, cm')
    /\ Camera.getAabb cm' = Some ((box_min, box_max), cm')
    /\ (forall c : Point,
           In c (map (Tf.transform P) (untransformed_corners_ cm)) ->
           in_box box_min box_max c)
    /\ forall i : Vec.Axis, Vec.coeff box_min i <= Vec.coeff box_max i.
Proof.
  intros [Hc Hp] Hi.
  destruct (list_length_8 _ (Hc Hi))
    as (c0 & c1 & c2 & c3 & c4 & c5 & c6 & c7 & Hcs).
  do 3 eexists. split; [apply setCameraPose_initialized; eassumption|].
  split; [reflexivity|].
  cbn [aabb_min_ aabb_max_ with_aabb]. rewrite Hcs.
  split.
  - intros c Hin i. apply aabb_loops_encloses, Hin.
  - intros i.
    destruct (aabb_loops_encloses
                (map (Tf.transform P) [c0; c1; c2; c3; c4; c5; c6; c7])
                (Tf.transform P c0) i (or_introl eq_refl)).
    lra.
Qed.

Lemma aabb_encloses_corners_witness :
  let cm := camera90 Vec.zero Vec.zero in
  let P := mkTransformation (mkQuat 0 1 0 0) (mkPoint 1 2 3) in
  wf cm
  /\ initialized_ cm = true
  /\ exists (cm' : CameraModel) (box_min box_max : Point),
       Camera.setCameraPose P cm = Some (tt, cm')
       /\ Camera.getAabb cm' = Some ((box_min, box_max), cm')
       /\ (forall c : Point,
              In c (map (Tf.transform P) (untransformed_corners_ cm)) ->
              in_box box_min box_max c)
       /\ forall i : Vec.Axis, Vec.coeff box_min i <= Vec.coeff box_max i.
Proof.
  intros cm P. split; [apply wf_camera90|]. split; [reflexivity|].
  exact (aabb_encloses_corners P cm (wf_camera90 _ _) eq_refl).
Defined.

(** * The box of a camera that is only translated *)

Lemma transform_translation (t c : Point) :
  Tf.transform (mkTransformation Tf.qidentity t) c = Vec.add c t.
Proof.
  unfold Tf.transform. cbn [rotation position].
  rewrite rotate_identity. reflexivity.
Qed.

Lemma point_eq_coeff (a b : Point) :
  (forall i : Vec.Axis, Vec.coeff a i = Vec.coeff b i) -> a = b.
Proof.
  intros H. apply point_eq;
    [apply (H Vec.AxisX) | apply (H Vec.AxisY) | apply (H Vec.AxisZ)].
Qed.

Lemma fold_Rmin_is (l : list R) (x m : R) :
  m = x \/ In m l -> m <= x -> (forall y : R, In y l -> m <= y) ->
  fold_left Rmin l x = m.
Proof.
  intros Hmem Hx Hall. apply Rle_antisym.
  - destruct Hmem as [-> | Hin];
      [apply fold_Rmin_le_init | apply fold_Rmin_le_elem, Hin].
  - destruct (fold_Rmin_attained l x) as [-> | Hin];
      [exact Hx | apply Hall, Hin].
Qed.

Lemma fold_Rmax_is (l : list R) (x m : R) :
  m = x \/ In m l -> x <= m -> (forall y : R, In y l -> y <= m) ->
  fold_left Rmax l x = m.
Proof.
  intros Hmem Hx Hall. apply Rle_antisym.
  - destruct (fold_Rmax_attained l x) as [-> | Hin];
      [exact Hx | apply Hall, Hin].
  - destruct Hmem as [-> | Hin];
      [apply fold_Rmax_ge_init | apply fold_Rmax_ge_elem, Hin].
Qed.

Ltac pick_member := cbn [In]; repeat first [left; lra | right].

Ltac all_members :=
  let y := fresh "y" in
  let Hy := fresh "Hy" in
  intros y Hy; cbn [In] in Hy;
  repeat (destruct Hy as [<- | Hy]; [lra|]);
  contradiction Hy.

(** X16: for a camera with valid intrinsics, placed at [t] without
    rotation, the box is the far face's extent in Y and Z and the two
    depths in X, shifted by [t] (the six bounds being coordinates a double
    can hold). *)
Theorem aabb_of_translated_camera
    (h v mn mx : R) (t : Point) (cm : CameraModel) :
  let lo := mkPoint (mn + px t) (- (mx * tan (h / 2)) + py t)
                    (- (mx * tan (v / 2)) + pz t) in
  let hi := mkPoint (mx + px t) (mx * tan (h / 2) + py t)
                    (mx * tan (v / 2) + pz t) in
  valid_intrinsics h v mn mx -> wf cm ->
  (forall i : Vec.Axis,
      in_double_range (Vec.coeff lo i) /\ in_double_range (Vec.coeff hi i)) ->
  exists cm' : CameraModel,
    (Camera.setIntrinsicsFromFoV h v mn mx;;
     Camera.setCameraPose (mkTransformation Tf.qidentity t)) cm
    = Some (tt, cm')
    /\ Camera.getAabb cm' = Some ((lo, hi), cm').
Proof.
  intros lo hi (Hh & Hv & Hmn & Hmx) Hwf Hrange.
  destruct (configure_and_pose h v mn mx (mkTransformation Tf.qidentity t)
              cm Hwf) as (cm' & Hrun & _ & Hmin & Hmax & _).
  exists cm'. split; [exact Hrun|].
  unfold Camera.getAabb, gets. rewrite Hmin, Hmax.
  pose proof (tan_half_fov_pos h Hh) as Hth.
  pose proof (tan_half_fov_pos v Hv) as Htv.
  pose proof (Hrange Vec.AxisX) as [RX1 RX2].
  pose proof (Hrange Vec.AxisY) as [RY1 RY2].
  pose proof (Hrange Vec.AxisZ) as [RZ1 RZ2].
  clear Hrange Hmin Hmax Hrun.
  unfold lo, hi, in_double_range, DBL_LOWEST in *.
  destruct t as [t1 t2 t3]. cbn [Vec.coeff px py pz] in *.
  set (th := tan (h / 2)) in *. set (tv := tan (v / 2)) in *.
  assert (Hnh : 0 < mn * th) by (apply Rmult_lt_0_compat; lra).
  assert (Hnv : 0 < mn * tv) by (apply Rmult_lt_0_compat; lra).
  assert (Hfh : mn * th < mx * th) by (apply Rmult_lt_compat_r; lra).
  assert (Hfv : mn * tv < mx * tv) by (apply Rmult_lt_compat_r; lra).
  assert (Hbox : forall i : Vec.Axis,
             Vec.coeff
               (fst (Camera.aabb_loops
                       (posed_corners h v mn mx
                          (mkTransformation Tf.qidentity (mkPoint t1 t2 t3)))
                       initial_aabb)) i
             = Vec.coeff (mkPoint (mn + t1) (- (mx * th) + t2)
                                  (- (mx * tv) + t3)) i
             /\ Vec.coeff
                  (snd (Camera.aabb_loops
                          (posed_corners h v mn mx
                             (mkTransformation Tf.qidentity
                                               (mkPoint t1 t2 t3)))
                          initial_aabb)) i
                = Vec.coeff (mkPoint (mx + t1) (mx * th + t2)
                                     (mx * tv + t3)) i).
  { intros i.
    destruct (aabb_loops_coeff
                (posed_corners h v mn mx
                   (mkTransformation Tf.qidentity (mkPoint t1 t2 t3)))
                initial_aabb i) as [-> ->].
    unfold posed_corners, code_corners, initial_aabb, Vec.setConstant,
      DBL_LOWEST.
    cbn [map]. rewrite !transform_translation.
    fold th. fold tv.
    destruct i;
      cbn [map fst snd Vec.coeff Vec.add px py pz];
      (split;
       [ apply fold_Rmin_is; [right; pick_member | lra | all_members]
       | apply fold_Rmax_is; [right; pick_member | lra | all_members] ]). }
  replace (fst (Camera.aabb_loops
                  (posed_corners h v mn mx
                     (mkTransformation Tf.qidentity (mkPoint t1 t2 t3)))
                  initial_aabb))
    with (mkPoint (mn + t1) (- (mx * th) + t2) (- (mx * tv) + t3))
    by (symmetry; apply point_eq_coeff; intros i; exact (proj1 (Hbox i))).
  replace (snd (Camera.aabb_loops
                  (posed_corners h v mn mx
                     (mkTransformation Tf.qidentity (mkPoint t1 t2 t3)))
                  initial_aabb))
    with (mkPoint (mx + t1) (mx * th + t2) (mx * tv + t3))
    by (symmetry; apply point_eq_coeff; intros i; exact (proj2 (Hbox i))).
  reflexivity.
Qed.

Lemma DBL_MAX_ge_1000 : 1000 <= DBL_MAX.
Proof. unfold DBL_MAX. apply IZR_le. vm_compute. discriminate. Qed.

Lemma aabb_of_translated_camera_witness :
  let t := mkPoint 1 2 3 in
  let lo := mkPoint (1 + px t) (- (10 * tan (PI / 2 / 2)) + py t)
                    (- (10 * tan (PI / 2 / 2)) + pz t) in
  let hi := mkPoint (10 + px t) (10 * tan (PI / 2 / 2) + py t)
                    (10 * tan (PI / 2 / 2) + pz t) in
  valid_intrinsics (PI / 2) (PI / 2) 1 10
  /\ wf (Camera.new Vec.zero Vec.zero)
  /\ (forall i : Vec.Axis,
         in_double_range (Vec.coeff lo i) /\ in_double_range (Vec.coeff hi i))
  /\ exists cm' : CameraModel,
       (Camera.setIntrinsicsFromFoV (PI / 2) (PI / 2) 1 10;;
        Camera.setCameraPose (mkTransformation Tf.qidentity t))
         (Camera.new Vec.zero Vec.zero) = Some (tt, cm')
       /\ Camera.getAabb cm' = Some ((lo, hi), cm').
Proof.
  intros t lo hi.
  assert (Hrange : forall i : Vec.Axis,
             in_double_range (Vec.coeff lo i)
             /\ in_double_range (Vec.coeff hi i)).
  { pose proof DBL_MAX_ge_1000 as Hbig.
    intros i. unfold lo, hi, t, in_double_range, DBL_LOWEST.
    rewrite tan_half_right_angle.
    destruct i; cbn [Vec.coeff px py pz]; lra. }
  split; [exact valid_intrinsics_90|].
  split; [apply wf_new|].
  split; [exact Hrange|].
  exact (aabb_of_translated_camera
           (PI / 2) (PI / 2) 1 10 t (Camera.new Vec.zero Vec.zero)
           valid_intrinsics_90 (wf_new _ _) Hrange).
Defined.